(** * StateWithRedux: the todos and ui slices of [src/app/index.jsx]

    A shallow embedding of the Redux store of the application (the two
    slices built with [createSlice], the root reducer built by
    [configureStore]) and of the [TodosCard] event handlers that dispatch
    to it, followed by the properties of the state container.

    JavaScript strings are sequences of UTF-16 code units; they are
    modelled as [list N].  The reducers are written with Immer drafts in
    the source; a draft mutation is modelled by the new state it
    produces. *)

From Stdlib Require Import ZArith QArith String Ascii.
From Stdlib Require DecimalZ.
From stdpp Require Import base option list.

Local Open Scope Z_scope.

(** ** JavaScript strings *)

Abbreviation jsstring := (list N).

(** Code units of a literal whose characters are all below U+0100. *)
Definition of_ascii (s : string) : jsstring :=
  N_of_ascii <$> list_ascii_of_string s.

(** [WhiteSpace] and [LineTerminator] of ECMAScript, the code points
    [String.prototype.trim] strips: TAB, LF, VT, FF, CR, SP, NBSP, the
    [Zs] category, LS, PS and ZWNBSP. *)
Definition isWhiteSpace (c : N) : bool :=
  ((9 <=? c) && (c <=? 13) || (c =? 32) || (c =? 160) || (c =? 5760)
   || (8192 <=? c) && (c <=? 8202) || (c =? 8232) || (c =? 8233)
   || (c =? 8239) || (c =? 8287) || (c =? 12288) || (c =? 65279))%N.

Fixpoint trimStart (s : jsstring) : jsstring :=
  match s with
  | [] => []
  | c :: r => if isWhiteSpace c then trimStart r else s
  end.

Definition trimEnd (s : jsstring) : jsstring :=
  reverse (trimStart (reverse s)).

(** [String.prototype.trim] *)
Definition trim (s : jsstring) : jsstring := trimEnd (trimStart s).

(** [ToBoolean] on a string: only the empty string is falsy. *)
Definition truthy (s : jsstring) : bool :=
  match s with [] => false | _ :: _ => true end.

(** ** Numbers and dates *)

Fixpoint uint_units (u : Decimal.uint) : jsstring :=
  match u with
  | Decimal.Nil => []
  | Decimal.D0 u => 48%N :: uint_units u
  | Decimal.D1 u => 49%N :: uint_units u
  | Decimal.D2 u => 50%N :: uint_units u
  | Decimal.D3 u => 51%N :: uint_units u
  | Decimal.D4 u => 52%N :: uint_units u
  | Decimal.D5 u => 53%N :: uint_units u
  | Decimal.D6 u => 54%N :: uint_units u
  | Decimal.D7 u => 55%N :: uint_units u
  | Decimal.D8 u => 56%N :: uint_units u
  | Decimal.D9 u => 57%N :: uint_units u
  end.

(** [Number.prototype.toString] on an integral time value: the decimal
    digits, with a leading [-] for a negative one. *)
Definition toString (z : Z) : jsstring :=
  match Z.to_int z with
  | Decimal.Pos u => uint_units u
  | Decimal.Neg u => 45%N :: uint_units u
  end.

(** [n] in decimal, padded with zeros up to [width] digits. *)
Definition padded (width : nat) (n : Z) : jsstring :=
  let s := toString n in
  replicate (width - length s)%nat 48%N ++ s.

Definition msPerDay : Z := 86400000.

(** Year, month and day of the proleptic Gregorian calendar for a day
    number counted from 1970-01-01. *)
Definition civil_from_days (day : Z) : Z * Z * Z :=
  let z := day + 719468 in
  let era := z / 146097 in
  let doe := z - era * 146097 in
  let yoe := (doe - doe / 1460 + doe / 36524 - doe / 146096) / 365 in
  let doy := doe - (365 * yoe + yoe / 4 - yoe / 100) in
  let mp := (5 * doy + 2) / 153 in
  let d := doy - (153 * mp + 2) / 5 + 1 in
  let m := if mp <? 10 then mp + 3 else mp - 9 in
  let y := yoe + era * 400 in
  (if m <=? 2 then y + 1 else y, m, d).

(** [Date.prototype.toISOString] of the date whose time value is [t]
    milliseconds: [YYYY-MM-DDTHH:mm:ss.sssZ], the year with a sign and six
    digits outside 0..9999. *)
Definition toISOString (t : Z) : jsstring :=
  let '(y, m, d) := civil_from_days (t / msPerDay) in
  let ms := t mod msPerDay in
  let year :=
    if (0 <=? y) && (y <=? 9999) then padded 4 y
    else (if y <? 0 then 45%N else 43%N) :: padded 6 (Z.abs y) in
  year ++ of_ascii "-" ++ padded 2 m ++ of_ascii "-" ++ padded 2 d
    ++ of_ascii "T" ++ padded 2 (ms / 3600000)
    ++ of_ascii ":" ++ padded 2 (ms / 60000 mod 60)
    ++ of_ascii ":" ++ padded 2 (ms / 1000 mod 60)
    ++ of_ascii "." ++ padded 3 (ms mod 1000) ++ of_ascii "Z".

(** What a reducer reads from the system clock: the value of
    [Date.now()] and the time value of [new Date()]. *)
Record Env := { Date_now : Z; new_Date : Z }.

(** ** The todos slice *)

Record Todo := {
  id : jsstring;
  title : jsstring;
  done : bool;
  createdAt : jsstring;
}.

Record TodosState := { items : list Todo }.

(** The assignment [todo.done = b] on a draft. *)
Definition set_done (b : bool) (todo : Todo) : Todo :=
  {| id := id todo; title := title todo; done := b;
     createdAt := createdAt todo |}.

#[global] Instance Todo_eq_dec : EqDecision Todo.
Proof. solve_decision. Defined.

Module todosSlice.

Definition initialState : TodosState := {| items := [] |}.

(** [state.items.push({ id: Date.now().toString(), title:
    action.payload, done: false, createdAt: new Date().toISOString() })] *)
Definition addTodo (env : Env) (state : TodosState) (payload : jsstring)
  : TodosState :=
  {| items := items state ++
       [ {| id := toString (Date_now env);
            title := payload;
            done := false;
            createdAt := toISOString (new_Date env) |} ] |}.

(** [const todo = state.items.find((t) => t.id === action.payload);
    if (todo) todo.done = !todo.done;] *)
Definition toggleTodo (state : TodosState) (payload : jsstring)
  : TodosState :=
  match list_find (λ t, id t = payload) (items state) with
  | Some (i, todo) =>
      {| items := <[i := set_done (negb (done todo)) todo]> (items state) |}
  | None => state
  end.

(** [state.items = state.items.filter((t) => t.id !== action.payload)] *)
Definition removeTodo (state : TodosState) (payload : jsstring)
  : TodosState :=
  {| items := filter (λ t, id t ≠ payload) (items state) |}.

(** [state.items = []] *)
Definition clearTodos (state : TodosState) : TodosState :=
  {| items := [] |}.

End todosSlice.

(** ** The ui slice *)

Record UiState := {
  darkMode : bool;
  showBanner : bool;
  showAddBanner : bool;
}.

Module uiSlice.

Definition initialState : UiState :=
  {| darkMode := false; showBanner := true; showAddBanner := false |}.

Definition toggleDarkMode (state : UiState) : UiState :=
  {| darkMode := negb (darkMode state);
     showBanner := showBanner state;
     showAddBanner := showAddBanner state |}.

Definition dismissBanner (state : UiState) : UiState :=
  {| darkMode := darkMode state;
     showBanner := false;
     showAddBanner := showAddBanner state |}.

Definition hideAddBanner (state : UiState) : UiState :=
  {| darkMode := darkMode state;
     showBanner := showBanner state;
     showAddBanner := false |}.

Definition showAddBanner (state : UiState) : UiState :=
  {| darkMode := darkMode state;
     showBanner := showBanner state;
     showAddBanner := true |}.

End uiSlice.

(** ** Actions and the store *)

(** The actions made by the action creators of the two slices; the
    payload of the todo actions is the string the view passes. *)
Inductive Action :=
  | AddTodo (payload : jsstring)
  | ToggleTodo (payload : jsstring)
  | RemoveTodo (payload : jsstring)
  | ClearTodos
  | ToggleDarkMode
  | DismissBanner
  | ShowAddBanner
  | HideAddBanner.

#[global] Instance Action_eq_dec : EqDecision Action.
Proof. solve_decision. Defined.

(** [todosSlice.reducer]: the case reducer of the action's type, and the
    state as it is for an action of another slice. *)
Definition todosReducer (env : Env) (state : TodosState) (action : Action)
  : TodosState :=
  match action with
  | AddTodo payload => todosSlice.addTodo env state payload
  | ToggleTodo payload => todosSlice.toggleTodo state payload
  | RemoveTodo payload => todosSlice.removeTodo state payload
  | ClearTodos => todosSlice.clearTodos state
  | _ => state
  end.

(** [uiSlice.reducer] *)
Definition uiReducer (state : UiState) (action : Action) : UiState :=
  match action with
  | ToggleDarkMode => uiSlice.toggleDarkMode state
  | DismissBanner => uiSlice.dismissBanner state
  | ShowAddBanner => uiSlice.showAddBanner state
  | HideAddBanner => uiSlice.hideAddBanner state
  | _ => state
  end.

Record RootState := { todos : TodosState; ui : UiState }.

(** The root reducer [configureStore] combines from
    [{ todos: todosSlice.reducer, ui: uiSlice.reducer }]: every action
    goes to both slice reducers. *)
Definition rootReducer (env : Env) (state : RootState) (action : Action)
  : RootState :=
  {| todos := todosReducer env (todos state) action;
     ui := uiReducer (ui state) action |}.

Definition initialRootState : RootState :=
  {| todos := todosSlice.initialState; ui := uiSlice.initialState |}.

(** A sequence of dispatches, each with the clock readings of its time. *)
Definition dispatchAll (state : RootState) (acts : list (Env * Action))
  : RootState :=
  foldl (λ st ea, rootReducer ea.1 st ea.2) state acts.

(** ** The view: [TodosCard], its handlers and the timers

    The store, the [title] state of [TodosCard], the timers set with
    [setTimeout] and not yet run, the number of haptic impacts requested,
    and the clock in milliseconds.  Handlers and timer callbacks run one
    at a time, to completion. *)

(** A pending [setTimeout(() => dispatch(callback), delay)]. *)
Record Timer := { due : Z; callback : Action }.

#[global] Instance Timer_eq_dec : EqDecision Timer.
Proof. solve_decision. Defined.

Record World := {
  store : RootState;
  TodosCard_title : jsstring;
  timers : list Timer;
  haptics : nat;
  clock : Z;
}.

Definition initialWorld (now : Z) : World :=
  {| store := initialRootState; TodosCard_title := [];
     timers := []; haptics := 0; clock := now |}.

(** [dispatch(action)]: the root reducer runs at the current time. *)
Definition dispatch (action : Action) (w : World) : World :=
  {| store := rootReducer {| Date_now := clock w; new_Date := clock w |}
                (store w) action;
     TodosCard_title := TodosCard_title w;
     timers := timers w; haptics := haptics w; clock := clock w |}.

Definition setTitle (s : jsstring) (w : World) : World :=
  {| store := store w; TodosCard_title := s;
     timers := timers w; haptics := haptics w; clock := clock w |}.

(** [Haptics.impactAsync(Haptics.ImpactFeedbackStyle.Light)] *)
Definition impactAsync (w : World) : World :=
  {| store := store w; TodosCard_title := TodosCard_title w;
     timers := timers w; haptics := S (haptics w); clock := clock w |}.

(** The timer queue is kept in the order the timers run: by due time,
    and by time of the call among equal due times. *)
Fixpoint enqueue (tm : Timer) (q : list Timer) : list Timer :=
  match q with
  | [] => [tm]
  | x :: r => if decide (due x ≤ due tm) then x :: enqueue tm r
              else tm :: q
  end.

(** [setTimeout(() => dispatch(action), delay)] *)
Definition setTimeout (action : Action) (delay : Z) (w : World) : World :=
  {| store := store w; TodosCard_title := TodosCard_title w;
     timers := enqueue {| due := clock w + delay; callback := action |}
                 (timers w);
     haptics := haptics w; clock := clock w |}.

(** [addNewTodo], the handler of the Add button and of the submit key:
[[
    if (!title.trim()) return;
    dispatch(addTodo(title.trim()));
    setTitle(EMPTY);            // the empty string literal
    Haptics.impactAsync(Haptics.ImpactFeedbackStyle.Light);
    dispatch(showAddBanner());
    setTimeout(() => dispatch(hideAddBanner()), 2000);
]]
    [title] is the value the handler closed over, the state at its call. *)
Definition addNewTodo (w : World) : World :=
  let title := TodosCard_title w in
  if negb (truthy (trim title)) then w
  else
    setTimeout HideAddBanner 2000
      (dispatch ShowAddBanner
         (impactAsync
            (setTitle []
               (dispatch (AddTodo (trim title)) w)))).

(** What the user can do on the screen. *)
Inductive Event :=
  | ChangeText (s : jsstring)
  | PressAdd
  | SubmitEditing
  | PressToggle (item_id : jsstring)
  | PressRemove (item_id : jsstring)
  | PressClearAll
  | SwitchDarkMode
  | PressGotIt.

Definition handle (e : Event) (w : World) : World :=
  match e with
  | ChangeText s => setTitle s w
  | PressAdd | SubmitEditing => addNewTodo w
  | PressToggle i => dispatch (ToggleTodo i) w
  | PressRemove i => dispatch (RemoveTodo i) w
  | PressClearAll => dispatch ClearTodos w
  | SwitchDarkMode => dispatch ToggleDarkMode w
  | PressGotIt => dispatch DismissBanner w
  end.

Definition set_clock (t : Z) (w : World) : World :=
  {| store := store w; TodosCard_title := TodosCard_title w;
     timers := timers w; haptics := haptics w; clock := t |}.

Definition set_timers (q : list Timer) (w : World) : World :=
  {| store := store w; TodosCard_title := TodosCard_title w;
     timers := q; haptics := haptics w; clock := clock w |}.

(** A timer runs its callback at its due time, or at once when that has
    passed. *)
Definition runTimer (w : World) (tm : Timer) : World :=
  dispatch (callback tm) (set_clock (Z.max (clock w) (due tm)) w).

(** Time passes until [t]: the timers due by then run in queue order and
    leave the queue. *)
Definition advance (t : Z) (w : World) : World :=
  let fired := filter (λ tm, due tm ≤ t) (timers w) in
  let pending := filter (λ tm, t < due tm) (timers w) in
  let w' := foldl runTimer (set_timers pending w) fired in
  set_clock (Z.max (clock w') t) w'.

(** A session: each event happens at its time, after the timers due by
    then. *)
Fixpoint run (evs : list (Z * Event)) (w : World) : World :=
  match evs with
  | [] => w
  | (t, e) :: rest => run rest (handle e (advance t w))
  end.

(** [useSelector((s) => s.todos.items)] *)
Definition the_items (w : World) : list Todo := items (todos (store w)).

(** [useSelector((s) => s.ui.showAddBanner)] *)
Definition addBannerShown (w : World) : bool := showAddBanner (ui (store w)).

(** ** The vocabulary of the statements *)

(** Two tasks added in the same millisecond, the clock reading 1000. *)
Definition twoAtOnce : World :=
  run [(1000, ChangeText (of_ascii "a")); (1000, PressAdd);
       (1000, ChangeText (of_ascii " b ")); (1000, SubmitEditing)]
    (initialWorld 0).

(** One task added at 1000, nothing pending before. *)
Definition oneAdded : World :=
  run [(1000, ChangeText (of_ascii "Buy milk")); (1000, PressAdd)]
    (initialWorld 0).

(** Empty, or white space only. *)
Definition blank (s : jsstring) : Prop :=
  Forall (λ c, isWhiteSpace c = true) s.

(** The task after [todo.done = !todo.done]. *)
Definition toggled (todo : Todo) : Todo := set_done (negb (done todo)) todo.


(** The ids of a collection, in its order. *)
Definition ids (l : list Todo) : list jsstring := id <$> l.

(** Three tasks added one second apart. *)
Definition threeAdded : World :=
  run [(1000, ChangeText (of_ascii "a")); (1000, PressAdd);
       (2000, ChangeText (of_ascii "b")); (2000, PressAdd);
       (3000, ChangeText (of_ascii "c")); (3000, PressAdd)]
    (initialWorld 0).

(** A task written with literals. *)
Definition task (i t : string) (d : bool) (c : string) : Todo :=
  {| id := of_ascii i; title := of_ascii t; done := d;
     createdAt := of_ascii c |}.

(** Decidable facts about concrete sessions, by evaluation. *)
Ltac by_evaluation := apply (bool_decide_unpack _); vm_compute; exact I.

(** The fields of a task no reducer assigns. *)
Definition same_task (t t' : Todo) : Prop :=
  id t = id t' ∧ title t = title t' ∧ createdAt t = createdAt t'.

(** [survives before after]: the collection [after] comes from [before]
    by keeping tasks, each with the same id, title and creation time, by
    dropping tasks, and by adding tasks behind the ones kept. *)
Inductive survives : list Todo → list Todo → Prop :=
  | survives_new (added : list Todo) : survives [] added
  | survives_keep (t t' : Todo) (l l' : list Todo) :
      same_task t t' → survives l l' → survives (t :: l) (t' :: l')
  | survives_gone (t : Todo) (l l' : list Todo) :
      survives l l' → survives (t :: l) l'.

(** Position by position: same task, and the very same value unless its
    id is [p]. *)
Definition toggle_frame (p : jsstring) (t t' : Todo) : Prop :=
  same_task t t' ∧ (id t ≠ p → t' = t).

(** The [name] of a slice: ["todos"] or ["ui"]. *)
Inductive Slice := todosSliceName | uiSliceName.

(** The slice whose name prefixes the type of the action. *)
Definition slice_of (a : Action) : Slice :=
  match a with
  | AddTodo _ | ToggleTodo _ | RemoveTodo _ | ClearTodos => todosSliceName
  | ToggleDarkMode | DismissBanner | ShowAddBanner | HideAddBanner =>
      uiSliceName
  end.

(** [useSelector((s) => s.ui.showBanner)] *)
Definition infoBannerShown (w : World) : bool := showBanner (ui (store w)).

(** Every pending timer is one set by [addNewTodo]. *)
Definition hide_only (q : list Timer) : Prop :=
  Forall (λ tm, callback tm = HideAddBanner) q.

(** The two events that call [addNewTodo]. *)
Definition is_add (e : Event) : Prop := e = PressAdd ∨ e = SubmitEditing.

(** No add among the events. *)
Definition no_adds (evs : list (Z * Event)) : Prop :=
  Forall (λ te, ¬ is_add te.2) evs.

(** The banner is hidden, or a hide is pending that is due by [d]. *)
Definition hide_by (d : Z) (w : World) : Prop :=
  hide_only (timers w)
  ∧ (addBannerShown w = false ∨ ∃ tm, tm ∈ timers w ∧ due tm ≤ d).

(** The banner is shown and no hide is due before [d]. *)
Definition shown_until (d : Z) (w : World) : Prop :=
  addBannerShown w = true ∧ Forall (λ tm, d ≤ due tm) (timers w).

(** A title as [addNewTodo] passes it on: not empty, and with nothing
    left to trim. *)
Definition trimmed_title (t : Todo) : Prop :=
  title t ≠ [] ∧ trim (title t) = title t.

(** Every pending timer is due after the current time and no more than
    2000 milliseconds after it. *)
Definition due_soon (w : World) : Prop :=
  Forall (λ tm, clock w < due tm ≤ clock w + 2000) (timers w).

(** Each event comes at a later millisecond than the one before it, the
    first one later than [c]. *)
Fixpoint each_later (c : Z) (evs : list (Z * Event)) : Prop :=
  match evs with
  | [] => True
  | (t, _) :: rest => c < t ∧ each_later t rest
  end.

(** The ids are renderings of clock readings up to [c]. *)
Definition ids_upto (c : Z) (l : list Todo) : Prop :=
  Forall (λ i, ∃ z, i = toString z ∧ z ≤ c) (ids l).

(** The parts of the world a [hideAddBanner] leaves alone. *)
Definition but_addBanner (w : World)
  : TodosState * bool * bool * jsstring * nat :=
  (todos (store w), darkMode (ui (store w)), showBanner (ui (store w)),
   TodosCard_title w, haptics w).

(** What holds of the banner and the timers between two events. *)
Definition banner_inv (w : World) : Prop :=
  hide_only (timers w) ∧ due_soon w
  ∧ (addBannerShown w = true → timers w ≠ []).

(** The ids are pairwise distinct and come from clock readings before
    [c]. *)
Definition ids_inv (c : Z) (w : World) : Prop :=
  hide_only (timers w) ∧ NoDup (ids (the_items w))
  ∧ ids_upto c (the_items w).



(** ** The layout of the view *)

(** [const numColumns = width >= 900 ? 2 : 1;] in [TodosCard], on the
    window width, a finite number. *)
Definition numColumns (width : Q) : Z :=
  if Qle_bool 900 width then 2 else 1.

(** [const isTablet = width >= 768;] in [AppScaffold] *)
Definition isTablet (width : Q) : bool := Qle_bool 768 width.

(** [marginRight: numColumns > 1 ? 8 : 0] of a card of the list *)
Definition marginRight (width : Q) : Z :=
  if 1 <? numColumns width then 8 else 0.

(** ** Evaluation of the model on known values *)

Example toString_now : toString 1700000000000 = of_ascii "1700000000000".
Proof. reflexivity. Qed.

Example toISOString_epoch : toISOString 0 = of_ascii "1970-01-01T00:00:00.000Z".
Proof. reflexivity. Qed.

Example toISOString_2023 :
  toISOString 1700000000123 = of_ascii "2023-11-14T22:13:20.123Z".
Proof. reflexivity. Qed.

Example toISOString_leap :
  toISOString 951782400000 = of_ascii "2000-02-29T00:00:00.000Z".
Proof. reflexivity. Qed.

Example toISOString_1969 :
  toISOString (-1) = of_ascii "1969-12-31T23:59:59.999Z".
Proof. reflexivity. Qed.

Example trim_spaces :
  trim (of_ascii "  Buy milk  ") = of_ascii "Buy milk".
Proof. reflexivity. Qed.

(** ** Trimming *)

Lemma trimStart_blank (s : jsstring) : blank s → trimStart s = [].
Proof.
  induction 1 as [|c r Hc _ IH]; simpl; [done|].
  by rewrite Hc.
Qed.

Lemma trim_blank (s : jsstring) : blank s → trim s = [].
Proof.
  intros Hs. unfold trim, trimEnd.
  by rewrite (trimStart_blank s Hs).
Qed.

Lemma trimStart_nil_blank (s : jsstring) : trimStart s = [] → blank s.
Proof.
  induction s as [|c r IH]; simpl; [constructor|].
  destruct (isWhiteSpace c) eqn:Hc; [|done].
  intros Hr. constructor; [done | by apply IH].
Qed.

Lemma trim_nil_blank (s : jsstring) : trim s = [] → blank s.
Proof.
  unfold trim, trimEnd. intros H.
  apply trimStart_nil_blank.
  apply (f_equal reverse) in H. rewrite reverse_involutive in H.
  apply trimStart_nil_blank in H.
  unfold blank in H. rewrite Forall_reverse in H.
  destruct (trimStart s) as [|c r] eqn:E; [done|].
  exfalso. inversion H as [|? ? Hc _]; subst.
  clear H. induction s as [|d s IH]; simpl in E; [done|].
  destruct (isWhiteSpace d) eqn:Hd; [auto|].
  injection E as -> _. congruence.
Qed.

(** The guard of [addNewTodo] lets a title through exactly when it has a
    character that is not white space. *)
Lemma truthy_trim (s : jsstring) : truthy (trim s) = false ↔ blank s.
Proof.
  split.
  - intros H. apply trim_nil_blank. by destruct (trim s).
  - intros H. by rewrite trim_blank.
Qed.

(** ** The handlers, step by step *)

Lemma addNewTodo_rejects (w : World) :
  trim (TodosCard_title w) = [] → addNewTodo w = w.
Proof. intros H. unfold addNewTodo. by rewrite H. Qed.

Lemma addNewTodo_accepts (w : World) :
  trim (TodosCard_title w) ≠ [] →
  addNewTodo w =
    setTimeout HideAddBanner 2000
      (dispatch ShowAddBanner
         (impactAsync
            (setTitle []
               (dispatch (AddTodo (trim (TodosCard_title w))) w)))).
Proof.
  intros H. unfold addNewTodo.
  by destruct (trim (TodosCard_title w)).
Qed.

Lemma the_items_addNewTodo (w : World) :
  trim (TodosCard_title w) ≠ [] →
  the_items (addNewTodo w) =
    the_items w ++
      [ {| id := toString (clock w);
           title := trim (TodosCard_title w);
           done := false;
           createdAt := toISOString (clock w) |} ].
Proof. intros H. by rewrite addNewTodo_accepts. Qed.

(** C1: when the title is empty or has only white space, [addNewTodo]
    (the Add button and the submit key alike) returns without doing
    anything: the store with both slices, the text in the input, the
    pending timers and the haptics are what they were, so no task is
    created; the handler has no other outcome, it raises nothing. *)
Theorem addNewTodo_blank_noop (w : World) :
  blank (TodosCard_title w) →
  addNewTodo w = w
  ∧ handle PressAdd w = w
  ∧ handle SubmitEditing w = w
  ∧ the_items (addNewTodo w) = the_items w.
Proof.
  intros Hb. apply trim_blank in Hb.
  assert (addNewTodo w = w) as E by by apply addNewTodo_rejects.
  simpl. by rewrite E.
Qed.

Lemma addNewTodo_blank_noop_witness :
  blank (of_ascii "   ")
  ∧ addNewTodo (setTitle (of_ascii "   ") oneAdded)
    = setTitle (of_ascii "   ") oneAdded.
Proof.
  assert (blank (TodosCard_title (setTitle (of_ascii "   ") oneAdded))) as Hb.
  { repeat constructor. }
  split; [exact Hb|].
  exact (proj1 (addNewTodo_blank_noop _ Hb)).
Defined.



Example oneAdded_items :
  the_items oneAdded =
    [ {| id := of_ascii "1000"; title := of_ascii "Buy milk"; done := false;
         createdAt := of_ascii "1970-01-01T00:00:01.000Z" |} ].
Proof. reflexivity. Qed.

(** ** The case reducers of the todos slice *)

Import todosSlice.




Lemma toggleTodo_absent (st : TodosState) (p : jsstring) :
  p ∉ ids (items st) → toggleTodo st p = st.
Proof.
  intros Hp. unfold toggleTodo.
  assert (list_find (λ t, id t = p) (items st) = None) as ->; [|done].
  apply list_find_None, Forall_forall. intros t Ht E.
  apply Hp. unfold ids. apply list_elem_of_fmap. by exists t.
Qed.


Lemma toggleTodo_cons (x : Todo) (l : list Todo) (p : jsstring) :
  items (toggleTodo {| items := x :: l |} p) =
    if decide (id x = p) then toggled x :: l
    else x :: items (toggleTodo {| items := l |} p).
Proof.
  unfold toggleTodo. simpl. case_decide; [done|].
  by destruct (list_find (λ t, id t = p) l) as [[i y]|].
Qed.

Lemma toggleTodo_first_match (pre post : list Todo) (x : Todo) (p : jsstring) :
  Forall (λ t, id t ≠ p) pre → id x = p →
  items (toggleTodo {| items := pre ++ x :: post |} p)
  = pre ++ toggled x :: post.
Proof.
  intros Hpre Hx. induction Hpre as [|y pre Hy _ IH]; simpl.
  - rewrite toggleTodo_cons. by rewrite decide_True.
  - rewrite toggleTodo_cons, decide_False by done. by rewrite IH.
Qed.

Lemma removeTodo_absent (st : TodosState) (p : jsstring) :
  p ∉ ids (items st) → removeTodo st p = st.
Proof.
  destruct st as [l]. unfold removeTodo. simpl. intros Hp. f_equal.
  induction l as [|x l IH]; [done|].
  rewrite filter_cons. unfold ids in Hp. simpl in Hp.
  apply not_elem_of_cons in Hp as [Hx Hl].
  rewrite decide_True by done. by rewrite IH.
Qed.


Lemma removeTodo_split (pre post : list Todo) (x : Todo) (p : jsstring) :
  Forall (λ t, id t ≠ p) pre → id x = p →
  items (removeTodo {| items := pre ++ x :: post |} p)
  = pre ++ filter (λ t, id t ≠ p) post.
Proof.
  intros Hpre Hx. simpl. rewrite filter_app, filter_cons.
  rewrite decide_False by (intros H; by apply H).
  f_equal. clear Hx. induction Hpre as [|y pre Hy _ IH]; [done|].
  rewrite filter_cons, decide_True by done. by rewrite IH.
Qed.

Example threeAdded_items :
  the_items threeAdded =
    [ task "1000" "a" false "1970-01-01T00:00:01.000Z";
      task "2000" "b" false "1970-01-01T00:00:02.000Z";
      task "3000" "c" false "1970-01-01T00:00:03.000Z" ].
Proof. reflexivity. Qed.

Example twoAtOnce_items :
  the_items twoAtOnce =
    [ task "1000" "a" false "1970-01-01T00:00:01.000Z";
      task "1000" "b" false "1970-01-01T00:00:01.000Z" ].
Proof. reflexivity. Qed.

(** ** Toggling *)




(** ** Removing *)

(** C6: [removeTodo] keeps exactly the tasks whose id is not the payload,
    in the order they had; when one task carries the id, the collection
    after is the collection before without it; and when no task carries
    it the state is left as it is. *)
Theorem removeTodo_removes (st : TodosState) (p : jsstring) :
  (∀ t, t ∈ items (removeTodo st p) ↔ t ∈ items st ∧ id t ≠ p)
  ∧ sublist (items (removeTodo st p)) (items st)
  ∧ (∀ pre x post, items st = pre ++ x :: post → id x = p →
       p ∉ ids pre → p ∉ ids post →
       items (removeTodo st p) = pre ++ post)
  ∧ (p ∉ ids (items st) → removeTodo st p = st).
Proof.
  split_and!.
  - intros t. simpl. rewrite list_elem_of_filter. tauto.
  - apply sublist_filter.
  - intros pre x post E Hx Hpre Hpost.
    destruct st as [l]. simpl in E. subst l.
    assert (∀ l, p ∉ ids l → Forall (λ t, id t ≠ p) l) as Hall.
    { intros l Hl. apply Forall_forall. intros t Ht Et. apply Hl.
      apply list_elem_of_fmap. by exists t. }
    rewrite removeTodo_split by auto.
    pose proof (removeTodo_absent {| items := post |} p Hpost) as Hp.
    injection Hp as ->. done.
  - apply removeTodo_absent.
Qed.

Lemma removeTodo_removes_witness :
  let st := todos (store threeAdded) in
  items (removeTodo st (of_ascii "2000")) =
    [ task "1000" "a" false "1970-01-01T00:00:01.000Z";
      task "3000" "c" false "1970-01-01T00:00:03.000Z" ]
  ∧ removeTodo st (of_ascii "4000") = st.
Proof.
  intros st.
  destruct (removeTodo_removes st (of_ascii "2000")) as (_ & _ & Hone & _).
  destruct (removeTodo_removes st (of_ascii "4000")) as (_ & _ & _ & Hnone).
  split.
  - apply (Hone [task "1000" "a" false "1970-01-01T00:00:01.000Z"]
             (task "2000" "b" false "1970-01-01T00:00:02.000Z")
             [task "3000" "c" false "1970-01-01T00:00:03.000Z"]);
      [reflexivity..| |]; by_evaluation.
  - apply Hnone. by_evaluation.
Defined.



(** ** What the operations leave alone *)

Lemma same_task_refl (t : Todo) : same_task t t.
Proof. by repeat split. Qed.

Lemma same_task_toggled (t : Todo) : same_task t (toggled t).
Proof. by repeat split. Qed.

#[local] Hint Resolve same_task_refl same_task_toggled : core.
#[local] Hint Constructors survives : core.

Lemma survives_app (l added : list Todo) : survives l (l ++ added).
Proof. induction l; simpl; auto. Qed.

Lemma survives_filter (P : Todo → Prop) `{∀ t, Decision (P t)} (l : list Todo) :
  survives l (filter P l).
Proof.
  induction l as [|t l IH]; [auto|].
  rewrite filter_cons. case_decide; auto.
Qed.

Lemma toggle_frame_same (p : jsstring) (l : list Todo) :
  Forall2 (toggle_frame p) l l.
Proof. induction l; constructor; auto. by split. Qed.

Lemma toggleTodo_frame (p : jsstring) (l : list Todo) :
  Forall2 (toggle_frame p) l (items (toggleTodo {| items := l |} p)).
Proof.
  induction l as [|x l IH]; [constructor|].
  rewrite toggleTodo_cons. case_decide.
  - constructor; [|apply toggle_frame_same]. by split.
  - constructor; [|done]. by split.
Qed.

Lemma survives_Forall2 (p : jsstring) (l l' : list Todo) :
  Forall2 (toggle_frame p) l l' → survives l l'.
Proof. induction 1 as [|t t' l l' [Hs _] _ IH]; auto. Qed.

(** C5: whatever the action, the tasks of the collection after it are
    tasks of the collection before it with the id, the title and the
    creation time they had, or tasks added behind them.  In detail:
    adding keeps every task as it is and puts one task behind them;
    toggling keeps every task at its index with these three fields, and
    keeps it with [done] as well when its id is not the payload; removing
    keeps a subsequence of the tasks as they are; clearing keeps none;
    and the actions of the ui slice keep the collection. *)
Theorem todos_only_done_changes (env : Env) (st : TodosState) (a : Action) :
  survives (items st) (items (todosReducer env st a))
  ∧ match a with
    | AddTodo _ => ∃ t, items (todosReducer env st a) = items st ++ [t]
    | ToggleTodo p =>
        Forall2 (toggle_frame p) (items st) (items (todosReducer env st a))
    | RemoveTodo _ => sublist (items (todosReducer env st a)) (items st)
    | ClearTodos => items (todosReducer env st a) = []
    | _ => items (todosReducer env st a) = items st
    end.
Proof.
  destruct st as [l].
  assert (survives l l) as Hrefl.
  { rewrite <- (app_nil_r l) at 2. apply survives_app. }
  destruct a as [p|p|p| | | | |]; simpl; split; try done.
  - apply survives_app.
  - by eexists.
  - eapply survives_Forall2, toggleTodo_frame.
  - apply toggleTodo_frame.
  - by apply survives_filter.
  - apply sublist_filter.
  - clear Hrefl. induction l; auto.
Qed.

(** Toggling looked at by index: the task at [i] keeps its id, title and
    creation time, and is untouched when its id is not the payload. *)
Lemma toggleTodo_lookup (st : TodosState) (p : jsstring) (i : nat) (t : Todo) :
  items st !! i = Some t →
  ∃ t', items (toggleTodo st p) !! i = Some t' ∧ toggle_frame p t t'.
Proof.
  destruct st as [l]. intros Hi.
  pose proof (toggleTodo_frame p l) as HF.
  destruct (Forall2_lookup_l _ _ _ _ _ HF Hi) as (t' & Hi' & Ht).
  by exists t'.
Qed.

(** ** The two slices *)

(** C9: dispatching an action of the todos slice (add, toggle, remove,
    clear) leaves the ui slice, with its three flags, as it is, and
    dispatching an action of the ui slice (toggleDarkMode, dismissBanner,
    showAddBanner, hideAddBanner) leaves the todos slice, so the
    collection, as it is. *)
Theorem slices_independent (env : Env) (st : RootState) (a : Action) :
  match slice_of a with
  | todosSliceName =>
      ui (rootReducer env st a) = ui st
      ∧ darkMode (ui (rootReducer env st a)) = darkMode (ui st)
      ∧ showBanner (ui (rootReducer env st a)) = showBanner (ui st)
      ∧ showAddBanner (ui (rootReducer env st a)) = showAddBanner (ui st)
  | uiSliceName =>
      todos (rootReducer env st a) = todos st
      ∧ items (todos (rootReducer env st a)) = items (todos st)
  end.
Proof.
  unfold rootReducer.
  destruct a as [p|p|p| | | | |]; simpl; split_and!; reflexivity.
Qed.

(** ** The information banner *)

Lemma rootReducer_showBanner (env : Env) (st : RootState) (a : Action) :
  showBanner (ui st) = false →
  showBanner (ui (rootReducer env st a)) = false.
Proof. intros H. destruct a; simpl; done. Qed.

Lemma dispatchAll_showBanner (st : RootState) (acts : list (Env * Action)) :
  showBanner (ui st) = false →
  showBanner (ui (dispatchAll st acts)) = false.
Proof.
  revert st. induction acts as [|[env a] acts IH]; intros st H; [done|].
  apply IH. by apply rootReducer_showBanner.
Qed.

Lemma runTimers_infoBanner (l : list Timer) (w : World) :
  infoBannerShown w = false →
  infoBannerShown (foldl runTimer w l) = false.
Proof.
  revert w. induction l as [|tm l IH]; intros w H; [done|].
  apply IH. by apply rootReducer_showBanner.
Qed.

Lemma advance_infoBanner (t : Z) (w : World) :
  infoBannerShown w = false → infoBannerShown (advance t w) = false.
Proof. intros H. unfold advance. by apply runTimers_infoBanner. Qed.

Lemma addNewTodo_infoBanner (w : World) :
  infoBannerShown w = false → infoBannerShown (addNewTodo w) = false.
Proof.
  intros H. unfold addNewTodo.
  by destruct (negb (truthy (trim (TodosCard_title w)))).
Qed.

Lemma handle_infoBanner (e : Event) (w : World) :
  infoBannerShown w = false → infoBannerShown (handle e w) = false.
Proof.
  intros H. destruct e; simpl; try done; by apply addNewTodo_infoBanner.
Qed.

Lemma run_infoBanner (evs : list (Z * Event)) (w : World) :
  infoBannerShown w = false → infoBannerShown (run evs w) = false.
Proof.
  revert w. induction evs as [|[t e] evs IH]; intros w H; [done|].
  simpl. by apply IH, handle_infoBanner, advance_infoBanner.
Qed.

(** C7: [showBanner] starts true; [dismissBanner] makes it false; and
    once it is false it is false after any action of either slice, so
    after any sequence of dispatches and after any session of user events
    and timers. *)
Theorem showBanner_dismissed_for_good :
  showBanner (ui initialRootState) = true
  ∧ (∀ env st, showBanner (ui (rootReducer env st DismissBanner)) = false)
  ∧ (∀ env st a, showBanner (ui st) = false →
       showBanner (ui (rootReducer env st a)) = false)
  ∧ (∀ st acts, showBanner (ui st) = false →
       showBanner (ui (dispatchAll st acts)) = false)
  ∧ (∀ w evs, infoBannerShown w = false →
       infoBannerShown (run evs w) = false).
Proof.
  split_and!.
  - reflexivity.
  - reflexivity.
  - apply rootReducer_showBanner.
  - apply dispatchAll_showBanner.
  - intros w evs. apply run_infoBanner.
Qed.

Lemma showBanner_dismissed_for_good_witness :
  let w := run [(500, PressGotIt)] (initialWorld 0) in
  let evs := [(1000, ChangeText (of_ascii "a")); (1000, PressAdd);
              (1500, SwitchDarkMode); (2000, PressToggle (of_ascii "1000"));
              (3500, PressRemove (of_ascii "1000")); (4000, PressClearAll)] in
  infoBannerShown (initialWorld 0) = true
  ∧ infoBannerShown w = false
  ∧ infoBannerShown (run evs w) = false.
Proof.
  intros w evs.
  assert (infoBannerShown w = false) as Hw by reflexivity.
  split_and!; [reflexivity | exact Hw |].
  exact (proj2 (proj2 (proj2 (proj2 showBanner_dismissed_for_good))) w evs Hw).
Defined.

(** ** The ids *)

(** C2 does not hold of the code: the id is the clock reading, and two
    adds in one millisecond (here the two of [twoAtOnce], at 1000) give
    two tasks the same id.  The reducers alone give the same state. *)
Theorem ids_collide_in_one_millisecond :
  let env := {| Date_now := 1000; new_Date := 1000 |} in
  ids (the_items twoAtOnce) = [of_ascii "1000"; of_ascii "1000"]
  ∧ ¬ NoDup (ids (the_items twoAtOnce))
  ∧ todos (dispatchAll initialRootState
             [(env, AddTodo (of_ascii "a")); (env, AddTodo (of_ascii "b"))])
    = todos (store twoAtOnce).
Proof.
  split_and!; [reflexivity| |reflexivity].
  intros Hnd. apply NoDup_cons in Hnd as [Hin _].
  apply Hin. by left.
Qed.

Lemma uint_units_inj (u v : Decimal.uint) : uint_units u = uint_units v → u = v.
Proof.
  revert v. induction u; intros [] E; simpl in E; try discriminate;
    try reflexivity; injection E as E; f_equal; auto.
Qed.

Lemma uint_units_no_sign (u : Decimal.uint) (s : jsstring) :
  uint_units u ≠ 45%N :: s.
Proof. by destruct u. Qed.

(** Distinct clock readings give distinct ids. *)
Lemma toString_inj (z z' : Z) : toString z = toString z' → z = z'.
Proof.
  unfold toString. intros E.
  rewrite <- (DecimalZ.of_to z), <- (DecimalZ.of_to z').
  destruct (Z.to_int z) as [u|u], (Z.to_int z') as [v|v].
  - by rewrite (uint_units_inj u v E).
  - by apply uint_units_no_sign in E.
  - symmetry in E. by apply uint_units_no_sign in E.
  - injection E as E. by rewrite (uint_units_inj u v E).
Qed.

Lemma toggle_frame_ids (p : jsstring) (l l' : list Todo) :
  Forall2 (toggle_frame p) l l' → ids l' = ids l.
Proof.
  induction 1 as [|t t' l l' [(Hid & _) _] _ IH]; [done|].
  unfold ids in *. rewrite !fmap_cons. by rewrite IH, Hid.
Qed.

Lemma toggleTodo_ids (st : TodosState) (p : jsstring) :
  ids (items (toggleTodo st p)) = ids (items st).
Proof. destruct st as [l]. apply (toggle_frame_ids p), toggleTodo_frame. Qed.

(** The ids stay pairwise distinct under every action but an add at a
    clock reading that a task of the collection already carries. *)
Lemma ids_NoDup_step (env : Env) (st : TodosState) (a : Action) :
  NoDup (ids (items st)) →
  (∀ p, a = AddTodo p → toString (Date_now env) ∉ ids (items st)) →
  NoDup (ids (items (todosReducer env st a))).
Proof.
  intros Hnd Hfresh. destruct a as [p|p|p| | | | |]; simpl; try done.
  - unfold ids. rewrite fmap_app. apply NoDup_app. split_and!; [done| |].
    + intros i Hi Hi'. apply list_elem_of_singleton in Hi'. subst i.
      by apply (Hfresh p).
    + apply NoDup_singleton.
  - fold (items (toggleTodo st p)). by rewrite toggleTodo_ids.
  - apply (sublist_NoDup _ (ids (items st)) Hnd).
    unfold ids. apply fmap_sublist, sublist_filter.
  - constructor.
Qed.

(** ** The banner of an added task and its timer *)

Lemma elem_of_enqueue (tm x : Timer) (q : list Timer) :
  x ∈ enqueue tm q ↔ x = tm ∨ x ∈ q.
Proof.
  induction q as [|y q IH]; simpl.
  - rewrite list_elem_of_singleton, elem_of_nil. tauto.
  - case_decide; rewrite !elem_of_cons; [rewrite IH|]; tauto.
Qed.

Lemma Forall_enqueue (P : Timer → Prop) (tm : Timer) (q : list Timer) :
  Forall P (enqueue tm q) ↔ P tm ∧ Forall P q.
Proof.
  rewrite !Forall_forall. split.
  - intros H. split; [|intros x Hx]; apply H, elem_of_enqueue; auto.
  - intros [Htm Hq] x [->|Hx]%elem_of_enqueue; auto.
Qed.


Lemma runTimers_timers (l : list Timer) (w : World) :
  timers (foldl runTimer w l) = timers w.
Proof. revert w. induction l as [|tm l IH]; intros w; [done|]. simpl. by rewrite IH. Qed.

Lemma runTimers_hidden (l : list Timer) (w : World) :
  hide_only l → addBannerShown w = false →
  addBannerShown (foldl runTimer w l) = false.
Proof.
  intros Hl. revert w. induction Hl as [|tm l Htm _ IH]; intros w H; [done|].
  simpl. apply IH. unfold runTimer. rewrite Htm. reflexivity.
Qed.

(** The last hide to run wins: after any timers have run, one at least,
    the banner is hidden. *)
Lemma runTimers_hides (tm : Timer) (l : list Timer) (w : World) :
  hide_only (tm :: l) → addBannerShown (foldl runTimer w (tm :: l)) = false.
Proof.
  intros H. apply Forall_cons in H as [Htm Hl].
  simpl. apply runTimers_hidden; [done|].
  unfold runTimer. rewrite Htm. reflexivity.
Qed.

Lemma runTimers_clock (t : Z) (l : list Timer) (w : World) :
  Forall (λ tm, due tm ≤ t) l →
  Z.max (clock (foldl runTimer w l)) t = Z.max (clock w) t.
Proof.
  intros Hl. revert w. induction Hl as [|tm l Htm _ IH]; intros w; [done|].
  simpl. rewrite IH. simpl. lia.
Qed.

Lemma timers_advance (t : Z) (w : World) :
  timers (advance t w) = filter (λ tm, t < due tm) (timers w).
Proof. unfold advance. simpl. by rewrite runTimers_timers. Qed.

Lemma clock_advance (t : Z) (w : World) :
  clock (advance t w) = Z.max (clock w) t.
Proof.
  unfold advance. simpl.
  apply (runTimers_clock t _ (set_timers _ w)).
  apply Forall_forall. intros tm Htm.
  by apply list_elem_of_filter in Htm as [? _].
Qed.

Lemma hide_only_filter (P : Timer → Prop) `{∀ tm, Decision (P tm)}
    (q : list Timer) :
  hide_only q → hide_only (filter P q).
Proof.
  unfold hide_only. rewrite !Forall_forall. intros Hq tm Htm.
  apply list_elem_of_filter in Htm as [_ Htm]. auto.
Qed.

Lemma addBanner_advance (t : Z) (w : World) :
  hide_only (timers w) →
  addBannerShown (advance t w) =
    match filter (λ tm, due tm ≤ t) (timers w) with
    | [] => addBannerShown w
    | _ :: _ => false
    end.
Proof.
  intros Hq. unfold advance.
  pose proof (hide_only_filter (λ tm, due tm ≤ t) _ Hq) as Hf.
  destruct (filter (λ tm, due tm ≤ t) (timers w)) as [|tm l]; [done|].
  change (addBannerShown (foldl runTimer (set_timers
            (filter (λ tm, t < due tm) (timers w)) w) (tm :: l)) = false).
  by apply runTimers_hides.
Qed.

Lemma runTimers_title (l : list Timer) (w : World) :
  TodosCard_title (foldl runTimer w l) = TodosCard_title w.
Proof. revert w. induction l as [|tm l IH]; intros w; [done|]. simpl. by rewrite IH. Qed.

Lemma title_advance (t : Z) (w : World) :
  TodosCard_title (advance t w) = TodosCard_title w.
Proof. unfold advance. simpl. by rewrite runTimers_title. Qed.

(** What a successful [addNewTodo] does to the banner and the timers. *)
Lemma addNewTodo_banner (w : World) :
  trim (TodosCard_title w) ≠ [] →
  addBannerShown (addNewTodo w) = true
  ∧ timers (addNewTodo w) =
      enqueue {| due := clock w + 2000; callback := HideAddBanner |} (timers w)
  ∧ clock (addNewTodo w) = clock w.
Proof. intros H. by rewrite addNewTodo_accepts. Qed.

Lemma addNewTodo_hide_only (w : World) :
  hide_only (timers w) → hide_only (timers (addNewTodo w)).
Proof.
  intros Hq. unfold addNewTodo.
  destruct (negb (truthy (trim (TodosCard_title w)))); [done|].
  simpl. by apply Forall_enqueue.
Qed.

Lemma handle_other (e : Event) (w : World) :
  ¬ is_add e →
  addBannerShown (handle e w) = addBannerShown w
  ∧ timers (handle e w) = timers w.
Proof.
  unfold is_add. intros H.
  destruct e; simpl; try done; exfalso; apply H; auto.
Qed.

Lemma hide_by_advance (d t : Z) (w : World) :
  hide_by d w → hide_by d (advance t w).
Proof.
  intros [Hq Hb]. split.
  - rewrite timers_advance. by apply hide_only_filter.
  - rewrite addBanner_advance, timers_advance by done.
    destruct (filter (λ tm, due tm ≤ t) (timers w)) as [|x l] eqn:E; [|by left].
    destruct Hb as [Hb|(tm & Htm & Hd)]; [by left|]. right.
    exists tm. split; [|done]. apply list_elem_of_filter. split; [|done].
    destruct (decide (due tm ≤ t)) as [Hle|]; [|lia].
    assert (tm ∈ filter (λ tm, due tm ≤ t) (timers w)) as Hin
      by by apply list_elem_of_filter.
    rewrite E in Hin. by apply elem_of_nil in Hin.
Qed.

Lemma hide_by_handle (d : Z) (e : Event) (w : World) :
  ¬ is_add e → hide_by d w → hide_by d (handle e w).
Proof.
  intros He [Hq Hb]. destruct (handle_other e w He) as [Eb Et].
  unfold hide_by. by rewrite Eb, Et.
Qed.

Lemma hide_by_run (d : Z) (evs : list (Z * Event)) (w : World) :
  no_adds evs → hide_by d w → hide_by d (run evs w).
Proof.
  intros Hevs. revert w.
  induction Hevs as [|[t e] evs He _ IH]; intros w Hw; [done|].
  simpl. by apply IH, hide_by_handle, hide_by_advance.
Qed.

(** Once the time of the pending hide has come, the banner is hidden. *)
Lemma hide_by_due (d t : Z) (w : World) :
  hide_by d w → d ≤ t → addBannerShown (advance t w) = false.
Proof.
  intros [Hq Hb] Hdt. rewrite addBanner_advance by done.
  destruct (filter (λ tm, due tm ≤ t) (timers w)) as [|x l] eqn:E; [|done].
  destruct Hb as [Hb|(tm & Htm & Hd)]; [done|].
  assert (tm ∈ filter (λ tm, due tm ≤ t) (timers w)) as Hin.
  { apply list_elem_of_filter. split; [lia|done]. }
  rewrite E in Hin. by apply elem_of_nil in Hin.
Qed.

Lemma filter_none (P : Timer → Prop) `{∀ tm, Decision (P tm)} (q : list Timer) :
  Forall (λ tm, ¬ P tm) q → filter P q = [].
Proof.
  induction 1 as [|tm q Htm _ IH]; [done|].
  by rewrite filter_cons, decide_False.
Qed.

Lemma shown_until_advance (d t : Z) (w : World) :
  t < d → shown_until d w → shown_until d (advance t w).
Proof.
  intros Htd [Hb Hq].
  assert (filter (λ tm, due tm ≤ t) (timers w) = []) as E.
  { apply filter_none. rewrite Forall_forall in Hq |- *.
    intros tm Htm Hle. apply Hq in Htm. lia. }
  split.
  - unfold advance. by rewrite E.
  - rewrite timers_advance. rewrite Forall_forall in Hq |- *.
    intros tm Htm. apply list_elem_of_filter in Htm as [_ Htm]. auto.
Qed.

Lemma shown_until_run (d : Z) (evs : list (Z * Event)) (w : World) :
  no_adds evs → Forall (λ te, te.1 < d) evs →
  shown_until d w → shown_until d (run evs w).
Proof.
  intros Hevs. revert w.
  induction Hevs as [|[t e] evs He _ IH]; intros w Ht Hw; [done|].
  apply Forall_cons in Ht as [Ht Hts].
  simpl. apply IH; [done|].
  pose proof (shown_until_advance d t w Ht Hw) as [Hb Hq].
  destruct (handle_other e (advance t w) He) as [Eb Et].
  unfold shown_until. by rewrite Eb, Et.
Qed.

Lemma run_hide_only (evs : list (Z * Event)) (w : World) :
  hide_only (timers w) → hide_only (timers (run evs w)).
Proof.
  revert w. induction evs as [|[t e] evs IH]; intros w Hw; [done|].
  simpl. apply IH.
  assert (hide_only (timers (advance t w))) as Ha.
  { rewrite timers_advance. by apply hide_only_filter. }
  destruct e; simpl; try done; by apply addNewTodo_hide_only.
Qed.

#[local] Arguments advance : simpl never.

(** C8: a successful [addNewTodo] at time [clock w] shows the banner at
    once and sets a timer that dispatches [hideAddBanner] at
    [clock w + 2000].  With no add after it the banner is hidden at any
    time from [clock w + 2000] on, whatever else the user does (and, when
    no older hide was pending, it is shown at any time before).  When a
    second add comes at [t2] within the 2000 milliseconds, the banner is
    shown after it, the hide set by the first add still hides it at
    [clock w + 2000], less than 2000 after the second add, whose own hide
    is pending until [t2 + 2000]; the banner is hidden from
    [clock w + 2000] on.  In general the banner is hidden whenever timers
    have run, whatever is still pending. *)
Theorem addBanner_shown_then_hidden (w : World) :
  hide_only (timers w) →
  trim (TodosCard_title w) ≠ [] →
  let d := clock w + 2000 in
  let w1 := addNewTodo w in
  addBannerShown w1 = true
  ∧ timers w1 = enqueue {| due := d; callback := HideAddBanner |} (timers w)
  ∧ (∀ evs t, no_adds evs → d ≤ t →
       addBannerShown (advance t (run evs w1)) = false)
  ∧ (timers w = [] →
     ∀ evs t, no_adds evs → Forall (λ te, te.1 < d) evs → t < d →
       addBannerShown (advance t (run evs w1)) = true)
  ∧ (∀ s2 t2, trim s2 ≠ [] → clock w ≤ t2 < d →
       let w2 := run [(t2, ChangeText s2); (t2, PressAdd)] w1 in
       addBannerShown w2 = true
       ∧ (∀ t, d ≤ t → addBannerShown (advance t w2) = false)
       ∧ (∀ t, t < t2 + 2000 →
            {| due := t2 + 2000; callback := HideAddBanner |}
              ∈ timers (advance t w2)))
  ∧ (∀ t, filter (λ tm, due tm ≤ t) (timers w) ≠ [] →
       addBannerShown (advance t w) = false).
Proof.
  intros Hq Hne d w1.
  destruct (addNewTodo_banner w Hne) as (Hshown & Htimers & Hclock).
  fold w1 in Hshown, Htimers, Hclock. fold d in Htimers.
  assert (hide_only (timers w1)) as Hq1 by by apply addNewTodo_hide_only.
  assert ({| due := d; callback := HideAddBanner |} ∈ timers w1) as Hin1.
  { rewrite Htimers. apply elem_of_enqueue. by left. }
  assert (hide_by d w1) as Hby.
  { split; [done|]. right. eexists. split; [exact Hin1|]. simpl. lia. }
  split_and!; [done..| | | |].
  - intros evs t Hevs Hdt.
    apply (hide_by_due d); [|done]. by apply hide_by_run.
  - intros Hnone evs t Hevs Hts Htd.
    assert (shown_until d w1) as Hsu.
    { split; [done|]. rewrite Htimers, Hnone. simpl.
      repeat constructor. simpl. lia. }
    by apply (shown_until_advance d t), shown_until_run.
  - intros s2 t2 Hs2 [Hlo Hhi] w2.
    set (wc := advance t2 (setTitle s2 (advance t2 w1))).
    assert (w2 = addNewTodo wc) as -> by reflexivity.
    assert (TodosCard_title wc = s2) as Htitle.
    { unfold wc. by rewrite title_advance. }
    assert (clock wc = t2) as Hclockc.
    { unfold wc. rewrite clock_advance.
      change (clock (setTitle s2 (advance t2 w1))) with (clock (advance t2 w1)).
      rewrite clock_advance. lia. }
    assert (timers wc
            = filter (λ tm, t2 < due tm) (filter (λ tm, t2 < due tm) (timers w1)))
      as Htimersc.
    { unfold wc. rewrite timers_advance.
      change (timers (setTitle s2 (advance t2 w1)))
        with (timers (advance t2 w1)).
      by rewrite timers_advance. }
    assert (trim (TodosCard_title wc) ≠ []) as Hnec by by rewrite Htitle.
    destruct (addNewTodo_banner wc Hnec) as (Hshown2 & Htimers2 & _).
    rewrite Hclockc in Htimers2.
    assert (hide_only (timers wc)) as Hqc.
    { rewrite Htimersc. by do 2 apply hide_only_filter. }
    assert (hide_by d (addNewTodo wc)) as Hby2.
    { split; [by apply addNewTodo_hide_only|]. right.
      exists {| due := d; callback := HideAddBanner |}. split; [|simpl; lia].
      rewrite Htimers2. apply elem_of_enqueue. right. rewrite Htimersc.
      do 2 (apply list_elem_of_filter; split; [simpl; lia|]). done. }
    split_and!; [done| |].
    + intros t Ht. by apply (hide_by_due d).
    + intros t Ht. rewrite timers_advance, Htimers2.
      apply list_elem_of_filter. split; [simpl; lia|].
      apply elem_of_enqueue. by left.
  - intros t Hfired. rewrite addBanner_advance by done.
    by destruct (filter (λ tm, due tm ≤ t) (timers w)).
Qed.

Lemma addBanner_shown_then_hidden_witness :
  let w := setTitle (of_ascii "X") (initialWorld 0) in
  let hide (t : Z) := {| due := t; callback := HideAddBanner |} in
  let w2 := run [(1500, ChangeText (of_ascii "Y")); (1500, PressAdd)]
              (addNewTodo w) in
  hide_only (timers w)
  ∧ trim (TodosCard_title w) ≠ []
  ∧ addBannerShown (addNewTodo w) = true
  ∧ timers (addNewTodo w) = [hide 2000]
  ∧ addBannerShown
      (advance 2000 (run [(500, SwitchDarkMode)] (addNewTodo w))) = false
  ∧ addBannerShown
      (advance 1999 (run [(500, SwitchDarkMode)] (addNewTodo w))) = true
  ∧ addBannerShown w2 = true
  ∧ addBannerShown (advance 2000 w2) = false
  ∧ hide 3500 ∈ timers (advance 2000 w2).
Proof.
  intros w hide w2.
  assert (hide_only (timers w)) as Hq by constructor.
  assert (trim (TodosCard_title w) ≠ []) as Hne by (vm_compute; discriminate).
  assert (no_adds [(500, SwitchDarkMode)]) as Hevs.
  { repeat constructor. simpl. intros [|]; discriminate. }
  destruct (addBanner_shown_then_hidden w Hq Hne)
    as (Hshown & Htimers & Hhidden & Hearly & Htwo & _).
  destruct (Htwo (of_ascii "Y") 1500) as (Hs2 & Hh2 & Hp2);
    [vm_compute; discriminate | unfold w; simpl; lia |].
  split_and!; [done | done | exact Hshown | exact Htimers | | | exact Hs2 | |].
  3: { apply Hh2. unfold w. simpl. lia. }
  3: { apply Hp2. lia. }
  - apply Hhidden; [done | unfold w; simpl; lia].
  - apply Hearly; [done | done | | unfold w; simpl; lia].
    repeat constructor.
Defined.


(** ** More on the handlers *)



Lemma clock_addNewTodo (w : World) : clock (addNewTodo w) = clock w.
Proof.
  unfold addNewTodo.
  by destruct (negb (truthy (trim (TodosCard_title w)))).
Qed.

Lemma clock_handle (e : Event) (w : World) : clock (handle e w) = clock w.
Proof. destruct e; simpl; try done; apply clock_addNewTodo. Qed.

(** ** What the timers touch *)

Lemma runTimers_frame (l : list Timer) (w : World) :
  hide_only l → but_addBanner (foldl runTimer w l) = but_addBanner w.
Proof.
  intros Hl. revert w. induction Hl as [|tm l Htm _ IH]; intros w; [done|].
  simpl. rewrite IH. unfold runTimer. by rewrite Htm.
Qed.

Lemma advance_frame (t : Z) (w : World) :
  hide_only (timers w) → but_addBanner (advance t w) = but_addBanner w.
Proof.
  intros Hq. unfold advance.
  change (but_addBanner
            (foldl runTimer
               (set_timers (filter (λ tm, t < due tm) (timers w)) w)
               (filter (λ tm, due tm ≤ t) (timers w)))
          = but_addBanner w).
  rewrite runTimers_frame; [done|]. by apply hide_only_filter.
Qed.

Lemma the_items_advance (t : Z) (w : World) :
  hide_only (timers w) → the_items (advance t w) = the_items w.
Proof.
  intros Hq. pose proof (advance_frame t w Hq) as E.
  unfold but_addBanner in E. unfold the_items. congruence.
Qed.

(** X2: in any session from the start of the application the only
    timers ever pending are those of [addNewTodo], so the passing of time
    changes nothing but the banner of an added task: the collection, the
    dark mode, the information banner, the text in the input and the
    haptics stay as they are, and once the timers due have run the
    banner is hidden. *)
Theorem time_only_hides_addBanner
    (now : Z) (evs : list (Z * Event)) (t : Z) :
  let w := run evs (initialWorld now) in
  hide_only (timers w)
  ∧ todos (store (advance t w)) = todos (store w)
  ∧ darkMode (ui (store (advance t w))) = darkMode (ui (store w))
  ∧ showBanner (ui (store (advance t w))) = showBanner (ui (store w))
  ∧ TodosCard_title (advance t w) = TodosCard_title w
  ∧ haptics (advance t w) = haptics w
  ∧ (addBannerShown (advance t w) = true → addBannerShown w = true).
Proof.
  intros w.
  assert (hide_only (timers w)) as Hq by (apply run_hide_only; constructor).
  pose proof (advance_frame t w Hq) as E. unfold but_addBanner in E.
  injection E as E1 E2 E3 E4 E5. split_and!; try done.
  rewrite addBanner_advance by done.
  by destruct (filter (λ tm, due tm ≤ t) (timers w)).
Qed.

(** ** The banner never stays *)

Lemma banner_inv_advance (t : Z) (w : World) :
  banner_inv w → banner_inv (advance t w).
Proof.
  intros (Hq & Hsoon & Hshown). split_and!.
  - rewrite timers_advance. by apply hide_only_filter.
  - unfold due_soon in *. rewrite timers_advance, clock_advance.
    rewrite Forall_forall in Hsoon |- *. intros tm Htm.
    apply list_elem_of_filter in Htm as [Ht Htm].
    specialize (Hsoon tm Htm). lia.
  - rewrite addBanner_advance, timers_advance by done.
    destruct (filter (λ tm, due tm ≤ t) (timers w)) as [|x l] eqn:E; [|done].
    intros Hb Hnil. specialize (Hshown Hb).
    revert Hshown E Hnil.
    destruct (timers w) as [|tm q]; intros Hshown E Hnil; [done|].
    rewrite filter_cons in E, Hnil.
    destruct (decide (due tm ≤ t)); [done|].
    by rewrite decide_True in Hnil by lia.
Qed.

Lemma banner_inv_addNewTodo (w : World) :
  banner_inv w → banner_inv (addNewTodo w).
Proof.
  intros (Hq & Hsoon & Hshown).
  destruct (decide (trim (TodosCard_title w) = [])) as [Hb|Hne].
  { by rewrite (addNewTodo_rejects w Hb). }
  destruct (addNewTodo_banner w Hne) as (_ & Ht & Hc).
  unfold banner_inv, due_soon. rewrite Ht, Hc. split_and!.
  - by apply Forall_enqueue.
  - apply Forall_enqueue. split; [simpl; lia|done].
  - intros _ Hnil.
    assert ({| due := clock w + 2000; callback := HideAddBanner |}
              ∈ enqueue {| due := clock w + 2000; callback := HideAddBanner |}
                  (timers w)) as Hin by (apply elem_of_enqueue; by left).
    rewrite Hnil in Hin. by apply elem_of_nil in Hin.
Qed.

Lemma banner_inv_handle (e : Event) (w : World) :
  banner_inv w → banner_inv (handle e w).
Proof.
  intros Hw.
  assert (is_add e ∨ ¬ is_add e) as [He|He].
  { unfold is_add. destruct e; auto; right; intros [|]; discriminate. }
  - assert (handle e w = addNewTodo w) as -> by by destruct He as [->| ->].
    by apply banner_inv_addNewTodo.
  - destruct Hw as (Hq & Hsoon & Hshown).
    destruct (handle_other e w He) as [Eb Et].
    unfold banner_inv, due_soon. by rewrite Eb, Et, clock_handle.
Qed.

Lemma banner_inv_run (evs : list (Z * Event)) (w : World) :
  banner_inv w → banner_inv (run evs w).
Proof.
  revert w. induction evs as [|[t e] evs IH]; intros w Hw; [done|].
  simpl. by apply IH, banner_inv_handle, banner_inv_advance.
Qed.

Lemma banner_inv_initial (now : Z) : banner_inv (initialWorld now).
Proof. split_and!; [constructor | constructor | done]. Qed.

(** X3: the banner of an added task never stays.  In any session from
    the start of the application, whenever the banner is shown a
    [hideAddBanner] is pending, every pending timer is due within the
    next 2000 milliseconds, and so, with no add in between, the banner
    is hidden 2000 milliseconds later whatever else the user does. *)
Theorem addBanner_always_leaves (now : Z) (evs : list (Z * Event)) :
  let w := run evs (initialWorld now) in
  due_soon w
  ∧ (addBannerShown w = true →
     ∃ tm, tm ∈ timers w ∧ callback tm = HideAddBanner
           ∧ clock w < due tm ≤ clock w + 2000)
  ∧ (∀ evs' t, no_adds evs' → clock w + 2000 ≤ t →
       addBannerShown (advance t (run evs' w)) = false).
Proof.
  intros w.
  destruct (banner_inv_run evs _ (banner_inv_initial now))
    as (Hq & Hsoon & Hshown).
  fold w in Hq, Hsoon, Hshown.
  assert (addBannerShown w = true →
          ∃ tm, tm ∈ timers w ∧ callback tm = HideAddBanner
                ∧ clock w < due tm ≤ clock w + 2000) as Hpending.
  { intros Hb. specialize (Hshown Hb).
    unfold due_soon, hide_only in Hsoon, Hq.
    destruct (timers w) as [|tm q] eqn:E; [done|].
    exists tm. apply Forall_cons in Hq as [Hcb _].
    apply Forall_cons in Hsoon as [Hdue _].
    split_and!; [by left | done | lia..]. }
  split_and!; [done..|].
  intros evs' t Hevs Ht.
  apply (hide_by_due (clock w + 2000)); [|done].
  apply hide_by_run; [done|]. split; [done|].
  destruct (addBannerShown w) eqn:Hb; [|by left].
  right. destruct (Hpending eq_refl) as (tm & Hin & _ & Hdue).
  exists tm. split; [done|lia].
Qed.

(** ** How the case reducers compose *)

Lemma filter_other_ids (p : jsstring) (l : list Todo) :
  p ∉ ids l → filter (λ t, id t ≠ p) l = l.
Proof.
  intros Hp. pose proof (removeTodo_absent {| items := l |} p Hp) as E.
  by injection E.
Qed.

(** X4: adding a task at a clock reading that no task of the collection
    carries as its id, and then toggling with the new id, marks the new
    task alone; removing with the new id, before or after that toggle,
    gives back the state the add started from. *)
Theorem add_toggle_remove_round_trip
    (env : Env) (st : TodosState) (payload : jsstring) :
  toString (Date_now env) ∉ ids (items st) →
  let new_id := toString (Date_now env) in
  let added := addTodo env st payload in
  (∃ t, items added = items st ++ [t]
        ∧ items (toggleTodo added new_id) = items st ++ [toggled t]
        ∧ done (toggled t) = true)
  ∧ removeTodo added new_id = st
  ∧ removeTodo (toggleTodo added new_id) new_id = st.
Proof.
  intros Hfresh new_id added. destruct st as [l]. simpl in Hfresh.
  assert (Forall (λ t, id t ≠ new_id) l) as Hall.
  { apply Forall_forall. intros t Ht E. apply Hfresh.
    apply list_elem_of_fmap. by exists t. }
  split_and!.
  - eexists. split; [reflexivity|]. split; [|done].
    by apply (toggleTodo_first_match l []).
  - unfold removeTodo, added, addTodo. simpl. f_equal.
    rewrite filter_app, filter_other_ids by done.
    rewrite filter_cons, decide_False by (intros H; by apply H).
    by rewrite app_nil_r.
  - unfold removeTodo. f_equal.
    unfold added, addTodo. simpl items at 2.
    rewrite (toggleTodo_first_match l []) by done.
    rewrite filter_app, filter_other_ids by done.
    rewrite filter_cons, decide_False by (intros H; by apply H).
    by rewrite app_nil_r.
Qed.

Lemma add_toggle_remove_round_trip_witness :
  let env := {| Date_now := 4000; new_Date := 4000 |} in
  let st := todos (store threeAdded) in
  (toString (Date_now env) ∉ ids (items st))
  ∧ removeTodo (addTodo env st (of_ascii "d")) (of_ascii "4000") = st
  ∧ removeTodo (toggleTodo (addTodo env st (of_ascii "d")) (of_ascii "4000"))
      (of_ascii "4000") = st.
Proof.
  intros env st.
  assert (toString (Date_now env) ∉ ids (items st)) as Hfresh
    by by_evaluation.
  split; [exact Hfresh|].
  exact (proj2 (add_toggle_remove_round_trip env st (of_ascii "d") Hfresh)).
Defined.

Lemma removeTodo_items_comm (p q : jsstring) (l : list Todo) :
  filter (λ t, id t ≠ p) (filter (λ t, id t ≠ q) l)
  = filter (λ t, id t ≠ q) (filter (λ t, id t ≠ p) l).
Proof.
  induction l as [|x l IH]; [done|].
  rewrite !filter_cons.
  destruct (decide (id x ≠ p)), (decide (id x ≠ q));
    rewrite ?filter_cons, ?decide_True, ?decide_False by done;
    by rewrite ?IH.
Qed.

Lemma removeTodo_items_idem (p : jsstring) (l : list Todo) :
  filter (λ t, id t ≠ p) (filter (λ t, id t ≠ p) l)
  = filter (λ t, id t ≠ p) l.
Proof.
  apply filter_other_ids. intros Hin.
  apply list_elem_of_fmap in Hin as (t & -> & Ht).
  by apply list_elem_of_filter in Ht as [Hne _].
Qed.

(** X5: removing is idempotent and the order of two removals does not
    matter. *)
Theorem removeTodo_idempotent_commutative (st : TodosState) (p q : jsstring) :
  removeTodo (removeTodo st p) p = removeTodo st p
  ∧ removeTodo (removeTodo st p) q = removeTodo (removeTodo st q) p.
Proof.
  unfold removeTodo. simpl. split; f_equal.
  - apply removeTodo_items_idem.
  - apply removeTodo_items_comm.
Qed.

Lemma remove_toggle_items (p q : jsstring) (l : list Todo) :
  filter (λ t, id t ≠ p) (items (toggleTodo {| items := l |} q))
  = items (toggleTodo {| items := filter (λ t, id t ≠ p) l |} q).
Proof.
  induction l as [|x l IH]; [done|].
  rewrite toggleTodo_cons, (filter_cons _ x l).
  destruct (decide (id x = q)) as [Hq|Hq], (decide (id x ≠ p)) as [Hp|Hp].
  - rewrite toggleTodo_cons, decide_True by done.
    by rewrite filter_cons, decide_True.
  - rewrite filter_cons, decide_False by done.
    assert (id x = p) as Hxp
      by (destruct (decide (id x = p)); [done | by destruct Hp]).
    assert (q = p) as -> by congruence.
    symmetry. change (items (toggleTodo (removeTodo {| items := l |} p) p)
                      = filter (λ t, id t ≠ p) l).
    rewrite toggleTodo_absent; [done|].
    intros Hin. apply list_elem_of_fmap in Hin as (t & -> & Ht).
    by apply list_elem_of_filter in Ht as [Hne _].
  - rewrite toggleTodo_cons, decide_False by done.
    by rewrite filter_cons, decide_True, IH.
  - by rewrite filter_cons, decide_False, IH.
Qed.

Lemma toggle_toggle_items (p q : jsstring) (l : list Todo) :
  items (toggleTodo {| items := items (toggleTodo {| items := l |} q) |} p)
  = items (toggleTodo {| items := items (toggleTodo {| items := l |} p) |} q).
Proof.
  induction l as [|x l IH]; [done|].
  rewrite !(toggleTodo_cons x l).
  destruct (decide (id x = q)) as [Hq|Hq], (decide (id x = p)) as [Hp|Hp].
  - by replace q with p by congruence.
  - rewrite (toggleTodo_cons (toggled x)), decide_False by done.
    by rewrite (toggleTodo_cons x), decide_True.
  - rewrite (toggleTodo_cons x), decide_True by done.
    by rewrite (toggleTodo_cons (toggled x)), decide_False.
  - rewrite !(toggleTodo_cons x), !decide_False by done. by rewrite IH.
Qed.

(** X6: toggles commute with each other and with removals, whatever the
    ids; a removal makes a later toggle with its id a no-op and wipes
    out an earlier one. *)
Theorem toggleTodo_removeTodo_commute (st : TodosState) (p q : jsstring) :
  toggleTodo (toggleTodo st q) p = toggleTodo (toggleTodo st p) q
  ∧ removeTodo (toggleTodo st q) p = toggleTodo (removeTodo st p) q
  ∧ toggleTodo (removeTodo st p) p = removeTodo st p
  ∧ removeTodo (toggleTodo st p) p = removeTodo st p.
Proof.
  assert (∀ s : TodosState, s = {| items := items s |}) as eta
    by by intros [].
  assert (p ∉ ids (items (removeTodo st p))) as Hgone.
  { intros Hin. apply list_elem_of_fmap in Hin as (t & -> & Ht).
    by apply list_elem_of_filter in Ht as [Hne _]. }
  assert (removeTodo (toggleTodo st q) p = toggleTodo (removeTodo st p) q)
    as Hrt.
  { destruct st as [l].
    rewrite (eta (toggleTodo (removeTodo {| items := l |} p) q)).
    unfold removeTodo at 1. f_equal. apply remove_toggle_items. }
  split_and!.
  - destruct st as [l].
    rewrite (eta (toggleTodo (toggleTodo {| items := l |} q) p)),
      (eta (toggleTodo (toggleTodo {| items := l |} p) q)).
    f_equal.
    rewrite (eta (toggleTodo {| items := l |} q)),
      (eta (toggleTodo {| items := l |} p)).
    apply toggle_toggle_items.
  - done.
  - by apply toggleTodo_absent.
  - destruct st as [l]. unfold removeTodo. f_equal.
    rewrite remove_toggle_items.
    change (items (toggleTodo (removeTodo {| items := l |} p) p)
            = items (removeTodo {| items := l |} p)).
    by rewrite toggleTodo_absent.
Qed.

Lemma length_toggleTodo (st : TodosState) (p : jsstring) :
  length (items (toggleTodo st p)) = length (items st).
Proof.
  destruct st as [l]. symmetry.
  apply (Forall2_length (toggle_frame p)), toggleTodo_frame.
Qed.

Lemma length_removeTodo_present (l : list Todo) (p : jsstring) :
  p ∈ ids l → (length (filter (λ t, id t ≠ p) l) < length l)%nat.
Proof.
  induction l as [|x l IH]; intros Hin.
  - by apply elem_of_nil in Hin.
  - rewrite filter_cons. simpl.
    pose proof (length_filter (λ t, id t ≠ p) l) as Hle.
    destruct (decide (id x ≠ p)) as [Hx|Hx]; simpl; [|lia].
    unfold ids in Hin. rewrite fmap_cons in Hin.
    apply elem_of_cons in Hin as [Hp|Hin]; [by destruct Hx|].
    apply IH in Hin. lia.
Qed.

(** X7: toggling keeps the number of tasks; removing never adds one, and
    takes at least one away exactly when a task carries the id. *)
Theorem toggle_remove_length (st : TodosState) (p : jsstring) :
  length (items (toggleTodo st p)) = length (items st)
  ∧ (length (items (removeTodo st p)) ≤ length (items st))%nat
  ∧ ((length (items (removeTodo st p)) < length (items st))%nat
     ↔ p ∈ ids (items st)).
Proof.
  split_and!.
  - apply length_toggleTodo.
  - apply length_filter.
  - split.
    + intros Hlt. destruct (decide (p ∈ ids (items st))) as [|Hno]; [done|].
      rewrite (removeTodo_absent st p Hno) in Hlt. lia.
    + apply length_removeTodo_present.
Qed.

Lemma foldl_removeTodo_items (ps : list jsstring) (st : TodosState) :
  items (foldl removeTodo st ps) = filter (λ t, id t ∉ ps) (items st).
Proof.
  revert st. induction ps as [|p ps IH]; intros st.
  - simpl. symmetry. induction (items st) as [|x l IHl]; [done|].
    rewrite filter_cons, decide_True, IHl; [done|]. apply not_elem_of_nil.
  - simpl. rewrite IH. simpl. rewrite list_filter_filter.
    apply list_filter_iff. intros t. rewrite not_elem_of_cons. tauto.
Qed.

(** X8: Clear All leaves what pressing Remove on every card, in any
    order and any number of times, leaves: removing with a list of ids
    that has the id of every task empties the collection, as
    [clearTodos] does. *)
Theorem clearTodos_removes_each (st : TodosState) (ps : list jsstring) :
  ids (items st) ⊆ ps →
  foldl removeTodo st ps = clearTodos st
  ∧ items (clearTodos st) = [].
Proof.
  intros Hall. split; [|done].
  assert (∀ s : TodosState, s = {| items := items s |}) as eta
    by by intros [].
  rewrite (eta (foldl removeTodo st ps)), foldl_removeTodo_items.
  unfold clearTodos. f_equal.
  induction (items st) as [|x l IH]; [done|].
  unfold ids in Hall. rewrite fmap_cons in Hall.
  rewrite filter_cons, decide_False.
  - apply IH. intros i Hi. apply Hall. by right.
  - intros Hx. apply Hx, Hall. by left.
Qed.

Lemma clearTodos_removes_each_witness :
  let st := todos (store threeAdded) in
  (ids (items st) ⊆ ids (items st))
  ∧ foldl removeTodo st [of_ascii "1000"; of_ascii "2000"; of_ascii "3000"]
    = clearTodos st.
Proof.
  intros st.
  assert (ids (items st) ⊆ ids (items st)) as Hall by done.
  split; [exact Hall|].
  exact (proj1 (clearTodos_removes_each st (ids (items st)) Hall)).
Defined.

(** ** The dark mode switch *)

(** X9: after any number of [toggleDarkMode] the dark mode is what it
    was when the number is even and the opposite when it is odd; the
    two banners and the todos slice are as they were. *)
Theorem toggleDarkMode_parity (st : RootState) (acts : list (Env * Action)) :
  Forall (λ ea, ea.2 = ToggleDarkMode) acts →
  let st' := dispatchAll st acts in
  darkMode (ui st') = xorb (darkMode (ui st)) (Nat.odd (length acts))
  ∧ showBanner (ui st') = showBanner (ui st)
  ∧ showAddBanner (ui st') = showAddBanner (ui st)
  ∧ todos st' = todos st.
Proof.
  intros Hacts. revert st.
  induction Hacts as [|[env a] acts Ha _ IH]; intros st; simpl.
  - split_and!; try done. by destruct (darkMode (ui st)).
  - simpl in Ha. subst a.
    destruct (IH (rootReducer env st ToggleDarkMode)) as (Hd & Hb & Hab & Ht).
    unfold dispatchAll in *. simpl. rewrite Hd, Hb, Hab, Ht. simpl.
    split_and!; try done.
    rewrite Nat.odd_succ, <- Nat.negb_odd.
    by destruct (darkMode (ui st)), (Nat.odd (length acts)).
Qed.

Lemma toggleDarkMode_parity_witness :
  let env := {| Date_now := 0; new_Date := 0 |} in
  let acts := [(env, ToggleDarkMode); (env, ToggleDarkMode)] in
  Forall (λ ea, ea.2 = ToggleDarkMode) acts
  ∧ darkMode (ui (dispatchAll initialRootState acts))
    = darkMode (ui initialRootState).
Proof.
  intros env acts.
  assert (Forall (λ ea, ea.2 = ToggleDarkMode) acts) as Hacts
    by (repeat constructor).
  split; [exact Hacts|].
  exact (proj1 (toggleDarkMode_parity initialRootState acts Hacts)).
Defined.

(** ** Titles *)

Lemma trimStart_head (s r : jsstring) (c : N) :
  trimStart s = c :: r → isWhiteSpace c = false.
Proof.
  induction s as [|d s IH]; simpl; [done|].
  destruct (isWhiteSpace d) eqn:Hd; [done|].
  intros E. injection E as -> _. done.
Qed.

Lemma trimStart_idem (s : jsstring) : trimStart (trimStart s) = trimStart s.
Proof.
  destruct (trimStart s) as [|c r] eqn:E; [done|].
  simpl. by rewrite (trimStart_head s r c E).
Qed.

Lemma trimStart_snoc (l : jsstring) (c : N) :
  isWhiteSpace c = false → ∃ l', trimStart (l ++ [c]) = l' ++ [c].
Proof.
  intros Hc. induction l as [|d l IH]; simpl.
  - exists []. by rewrite Hc.
  - destruct (isWhiteSpace d); [done|]. by exists (d :: l).
Qed.

Lemma trimEnd_head (c : N) (r : jsstring) :
  isWhiteSpace c = false → ∃ r', trimEnd (c :: r) = c :: r'.
Proof.
  intros Hc. unfold trimEnd. rewrite reverse_cons.
  destruct (trimStart_snoc (reverse r) c Hc) as [l' ->].
  exists (reverse l'). by rewrite reverse_app.
Qed.

Lemma trimEnd_idem (s : jsstring) : trimEnd (trimEnd s) = trimEnd s.
Proof. unfold trimEnd. by rewrite reverse_involutive, trimStart_idem. Qed.

Lemma trimStart_trim (s : jsstring) : trimStart (trim s) = trim s.
Proof.
  unfold trim. destruct (trimStart s) as [|c r] eqn:E; [done|].
  pose proof (trimStart_head s r c E) as Hc.
  destruct (trimEnd_head c r Hc) as [r' ->]. simpl. by rewrite Hc.
Qed.

(** Trimming again changes nothing. *)
Lemma trim_idem (s : jsstring) : trim (trim s) = trim s.
Proof.
  unfold trim at 1. rewrite trimStart_trim.
  unfold trim. apply trimEnd_idem.
Qed.

Lemma toggle_frame_titles (p : jsstring) (l l' : list Todo) :
  Forall2 (toggle_frame p) l l' →
  Forall trimmed_title l → Forall trimmed_title l'.
Proof.
  induction 1 as [|t t' l l' [(_ & Ht & _) _] _ IH]; [done|].
  intros [Hx Hl]%Forall_cons. constructor; [|auto].
  unfold trimmed_title in *. by rewrite <- Ht.
Qed.

Lemma todosReducer_titles (env : Env) (st : TodosState) (a : Action) :
  Forall trimmed_title (items st) →
  (∀ p, a = AddTodo p → p ≠ [] ∧ trim p = p) →
  Forall trimmed_title (items (todosReducer env st a)).
Proof.
  intros Hst Hadd. destruct st as [l].
  destruct a as [p|p|p| | | | |]; simpl; try done.
  - apply Forall_app. split; [done|].
    constructor; [|done]. by apply Hadd.
  - apply (toggle_frame_titles p l); [apply toggleTodo_frame | done].
  - simpl in Hst. rewrite Forall_forall in Hst |- *.
    intros t Ht. apply list_elem_of_filter in Ht as [_ Ht]. auto.
Qed.

Lemma handle_titles (e : Event) (w : World) :
  Forall trimmed_title (the_items w) →
  Forall trimmed_title (the_items (handle e w)).
Proof.
  intros Hw. destruct e as [s| | |i|i| | |]; simpl; try done.
  1, 2:
    destruct (decide (trim (TodosCard_title w) = [])) as [Hb|Hne];
    [ by rewrite (addNewTodo_rejects w Hb)
    | rewrite (the_items_addNewTodo w Hne);
      apply Forall_app; split; [done|];
      constructor; [|done]; split; [done | apply trim_idem] ].
  all: by apply todosReducer_titles.
Qed.

(** X10: however the session goes, every task in the collection has a
    title that is not empty and has no white space at either end: the
    handlers are the only way in, [addNewTodo] passes the trimmed title
    on and only when something is left of it, and no reducer or timer
    writes a title afterwards. *)
Theorem titles_trimmed_nonempty (now : Z) (evs : list (Z * Event)) :
  Forall trimmed_title (the_items (run evs (initialWorld now))).
Proof.
  assert (∀ w, hide_only (timers w) → Forall trimmed_title (the_items w) →
               Forall trimmed_title (the_items (run evs w))) as Hrun.
  { induction evs as [|[t e] evs IH]; intros w Hq Hw; [done|].
    simpl. apply IH.
    - apply (run_hide_only [(t, e)] w Hq).
    - apply handle_titles. by rewrite the_items_advance. }
  apply Hrun; constructor.
Qed.

(** ** Ids while the clock moves *)

Lemma ids_upto_mono (c c' : Z) (l : list Todo) :
  c ≤ c' → ids_upto c l → ids_upto c' l.
Proof.
  intros Hc Hl. unfold ids_upto in *.
  eapply Forall_impl; [exact Hl|].
  intros i (z & -> & Hz). exists z. split; [done|lia].
Qed.

Lemma ids_upto_fresh (c t : Z) (l : list Todo) :
  ids_upto c l → c < t → toString t ∉ ids l.
Proof.
  unfold ids_upto. rewrite Forall_forall. intros Hl Hct Hin.
  destruct (Hl _ Hin) as (z & E & Hz).
  apply toString_inj in E. lia.
Qed.

Lemma todosReducer_ids_upto (c : Z) (env : Env) (st : TodosState) (a : Action) :
  ids_upto c (items st) → Date_now env ≤ c →
  ids_upto c (items (todosReducer env st a)).
Proof.
  intros Hst Hnow. unfold ids_upto in *.
  destruct a as [p|p|p| | | | |]; simpl; try done.
  - unfold ids. rewrite fmap_app. apply Forall_app. split; [done|].
    constructor; [|done]. by exists (Date_now env).
  - fold (items (toggleTodo st p)). by rewrite toggleTodo_ids.
  - rewrite Forall_forall in Hst |- *. intros i Hi. apply Hst.
    apply list_elem_of_fmap in Hi as (t & -> & Ht).
    apply list_elem_of_filter in Ht as [_ Ht].
    apply list_elem_of_fmap. by exists t.
Qed.

(** What a handler does to the collection is what one action does, or
    nothing. *)
Lemma the_items_handle (e : Event) (w : World) :
  ∃ a, the_items (handle e w)
       = items (todosReducer {| Date_now := clock w; new_Date := clock w |}
                  (todos (store w)) a).
Proof.
  assert (∃ a, the_items (addNewTodo w)
               = items (todosReducer
                          {| Date_now := clock w; new_Date := clock w |}
                          (todos (store w)) a)) as Hadd.
  { destruct (decide (trim (TodosCard_title w) = [])) as [Hb|Hne].
    - exists ToggleDarkMode. by rewrite (addNewTodo_rejects w Hb).
    - exists (AddTodo (trim (TodosCard_title w))).
      by rewrite (addNewTodo_accepts w Hne). }
  destruct e as [s| | |i|i| | |]; simpl; try done.
  - by exists ToggleDarkMode.
  - by exists (ToggleTodo i).
  - by exists (RemoveTodo i).
  - by exists ClearTodos.
  - by exists ToggleDarkMode.
  - by exists DismissBanner.
Qed.

Lemma handle_ids (c : Z) (e : Event) (w : World) :
  c < clock w →
  NoDup (ids (the_items w)) → ids_upto c (the_items w) →
  NoDup (ids (the_items (handle e w)))
  ∧ ids_upto (clock w) (the_items (handle e w)).
Proof.
  intros Hc Hnd Hup. destruct (the_items_handle e w) as [a ->]. split.
  - apply ids_NoDup_step; [done|].
    intros p _. simpl. by apply (ids_upto_fresh c).
  - apply todosReducer_ids_upto; [|simpl; lia].
    apply (ids_upto_mono c); [lia|done].
Qed.

Lemma ids_inv_event (c t : Z) (e : Event) (w : World) :
  clock w ≤ c → c < t → ids_inv c w →
  clock (handle e (advance t w)) = t
  ∧ ids_inv t (handle e (advance t w)).
Proof.
  intros Hcw Hct (Hq & Hnd & Hup).
  assert (clock (advance t w) = t) as Hc1 by (rewrite clock_advance; lia).
  assert (the_items (advance t w) = the_items w) as Hi1
    by by apply the_items_advance.
  split; [by rewrite clock_handle|].
  destruct (handle_ids c e (advance t w)) as [Hnd' Hup'];
    [lia | by rewrite Hi1 | by rewrite Hi1 |].
  rewrite Hc1 in Hup'. split_and!; [|done..].
  apply (run_hide_only [(t, e)] w Hq).
Qed.

Lemma ids_inv_run (c : Z) (evs : list (Z * Event)) (w : World) :
  clock w ≤ c → each_later c evs → ids_inv c w →
  NoDup (ids (the_items (run evs w))).
Proof.
  revert c w. induction evs as [|[t e] evs IH]; intros c w Hcw Hevs Hw.
  - by destruct Hw as (_ & Hnd & _).
  - destruct Hevs as [Hct Hrest]. simpl.
    destruct (ids_inv_event c t e w Hcw Hct Hw) as [Hclock Hinv].
    apply (IH t); [lia | done | done].
Qed.

(** X11: as long as every event of the session comes at a later
    millisecond than the one before, the ids of the tasks are pairwise
    distinct: an id is the rendering of the clock at the add, different
    readings give different renderings, and the tasks in the collection
    were all added at earlier readings. *)
Theorem ids_distinct_when_clock_moves (now : Z) (evs : list (Z * Event)) :
  each_later now evs →
  NoDup (ids (the_items (run evs (initialWorld now)))).
Proof.
  intros Hevs. apply (ids_inv_run now); [done | done |].
  split_and!; constructor.
Qed.

Lemma ids_distinct_when_clock_moves_witness :
  let evs := [(1000, ChangeText (of_ascii "a")); (1001, PressAdd);
              (1002, ChangeText (of_ascii "b")); (1003, SubmitEditing);
              (1004, PressToggle (of_ascii "1001"))] in
  each_later 0 evs
  ∧ ids (the_items (run evs (initialWorld 0)))
    = [of_ascii "1001"; of_ascii "1003"]
  ∧ NoDup (ids (the_items (run evs (initialWorld 0)))).
Proof.
  intros evs.
  assert (each_later 0 evs) as Hevs by (simpl; lia).
  split_and!; [exact Hevs | reflexivity |].
  exact (ids_distinct_when_clock_moves 0 evs Hevs).
Defined.

(** ** Haptics *)







(** ** Breakpoints *)

(** X13: the list has one column or two; it has two only on a window
    wide enough for the tablet layout of the scaffold, so a window that
    gets the phone layout always gets one column; and a card has its
    right margin of 8 exactly in the two-column list. *)
Theorem two_columns_only_on_tablet (width : Q) :
  (numColumns width = 1 ∨ numColumns width = 2)
  ∧ (numColumns width = 2 → isTablet width = true)
  ∧ (isTablet width = false →
     numColumns width = 1 ∧ marginRight width = 0)
  ∧ (marginRight width = 8 ↔ numColumns width = 2).
Proof.
  assert (numColumns width = 2 → isTablet width = true) as Htab.
  { unfold numColumns, isTablet.
    destruct (Qle_bool 900 width) eqn:E; [|done]. intros _.
    apply Qle_bool_iff in E. apply Qle_bool_iff.
    apply (Qle_trans _ 900); [|done]. by compute. }
  assert (numColumns width = 1 ∨ numColumns width = 2) as Hcols.
  { unfold numColumns. destruct (Qle_bool 900 width); auto. }
  split_and!; [done | done | |].
  - intros Hphone. unfold marginRight.
    destruct Hcols as [->|H2]; [done|].
    rewrite (Htab H2) in Hphone. discriminate.
  - unfold marginRight. destruct Hcols as [->| ->]; simpl; split; done.
Qed.

Lemma two_columns_only_on_tablet_witness :
  numColumns 1024 = 2 ∧ isTablet 1024 = true ∧ marginRight 1024 = 8
  ∧ numColumns 800 = 1 ∧ isTablet 800 = true
  ∧ numColumns 390 = 1 ∧ isTablet 390 = false ∧ marginRight 390 = 0.
Proof.
  destruct (two_columns_only_on_tablet 1024) as (_ & Htab & _ & Hm).
  split_and!; [reflexivity | by apply Htab | by apply Hm | reflexivity..].
Defined.
